(** * Places search with a map: debounced autocomplete, recent searches, marker

    A shallow embedding of [src/components/PlacesSearch.tsx] and
    [src/screens/MapScreen.tsx].  The two React components run on one event
    loop; every [await] of the source is a point where control returns to the
    loop.  The embedding therefore makes the loop explicit: a [World] holds the
    React state of both components together with the pending timers, the
    queue of outstanding AsyncStorage operations and the HTTP requests in
    flight, and [step] runs one turn of the loop (a UI handler, a timer
    callback, or the continuation after an [await]) to completion.  Every call
    that leaves the program (the [onPlaceSelect] prop, AsyncStorage, axios,
    console.error, timers) is recorded in a trace. *)

From Stdlib Require Import ZArith String Ascii List Lia.
From stdpp Require Import base list strings.

Local Open Scope string_scope.
Local Open Scope list_scope.

(** ** Data model *)

(** Coordinates are JavaScript numbers in the source.  The program only copies
    them from a response into its state, it never computes on them, so they
    are carried here as integers (microdegrees). *)
Record Coordinates := { latitude : Z; longitude : Z }.

(** [Place.location] of MapScreen.tsx. *)
Record LatLng := { lat : Z; lng : Z }.

(** [Region] of react-native-maps: [center] stands for its [latitude] and
    [longitude] fields. *)
Record Region := { center : Coordinates; latitudeDelta : Z; longitudeDelta : Z }.

Record StructuredFormatting := { main_text : string; secondary_text : string }.

(** [interface Place]; [location] is the optional field MapScreen.tsx adds. *)
Record Place := {
  place_id : string;
  description : string;
  structured_formatting : StructuredFormatting;
  location : option LatLng
}.

(** The part of a suggestion the field mask asks for; [mainText] and
    [secondaryText] stand for [mainText.text] and [secondaryText.text]. *)
Record StructuredFormat := { mainText : string; secondaryText : string }.
Record Prediction := { placeId : string; structuredFormat : StructuredFormat }.

(** [interface PlacePrediction]: the source filters on the truthiness of the
    [placePrediction] field, so it may be absent. *)
Record PlacePrediction := { placePrediction : option Prediction }.

(** [response.data]; [suggestions = None] is a body without a [suggestions]
    array, on which [.filter] throws inside the [try]. *)
Record AutocompleteResponse := { suggestions : option (list PlacePrediction) }.

(** How a promise settles. *)
Inductive Settled (A : Type) : Type :=
| Fulfilled (value : A)
| Rejected.
Arguments Fulfilled {A} value.
Arguments Rejected {A}.

#[global] Instance Coordinates_eq_dec : EqDecision Coordinates.
Proof. solve_decision. Defined.
#[global] Instance LatLng_eq_dec : EqDecision LatLng.
Proof. solve_decision. Defined.
#[global] Instance StructuredFormatting_eq_dec : EqDecision StructuredFormatting.
Proof. solve_decision. Defined.
#[global] Instance Place_eq_dec : EqDecision Place.
Proof. solve_decision. Defined.

(** ** The runtime: timers, AsyncStorage, axios, trace *)

(** A pending [setTimeout(fetchPredictions, 300)]: the callback is the
    closure of the render that created it, so it carries that render's
    [searchText] and [userLocation]. *)
Record Timer := {
  timer_id : nat;
  deadline : nat;
  timer_text : string;
  timer_location : option Coordinates
}.

(** What resumes when a pending [AsyncStorage.getItem('searchHistory')]
    settles: the async function that awaits it. *)
Inductive GetAwaiter :=
| LoadRecentSearches                      (* PlacesSearch.loadRecentSearches *)
| LoadSearchHistory                       (* MapScreen.loadSearchHistory *)
| SaveToRecentSearches (place : Place).   (* PlacesSearch.saveToRecentSearches *)

(** What resumes when a pending [AsyncStorage.setItem('searchHistory', ..)]
    settles. *)
Inductive SetAwaiter :=
| SavedSearchHistory (newHistory : list Place)       (* MapScreen.saveSearchHistory *)
| SavedRecentSearches (recentSearches : list Place). (* PlacesSearch.saveToRecentSearches *)

Inductive StorageOp :=
| GetItem (k : GetAwaiter)
| SetItem (value : list Place) (k : SetAwaiter).

(** An autocomplete request in flight. *)
Record Lookup := {
  lookup_id : nat;
  lookup_input : string;
  lookup_bias : option Coordinates
}.

(** Calls that leave the program, most recent first in the trace. *)
Inductive Effect :=
| CallOnPlaceSelect (place : Place)
| CallGetItem
| CallSetItem (value : list Place)
| CallAutocomplete (input : string) (locationBias : option Coordinates)
| CallPlaceDetails (id : string)
| CallSetTimeout (id : nat) (delay : nat)
| CallClearTimeout (id : nat)
| KeyboardDismiss
| ConsoleError (message : string).

(** [useState] cells of [PlacesSearch]. *)
Record SearchState := {
  searchText : string;
  predictions : list Place;
  loading : bool;
  recentSearches : list Place;
  isInputFocused : bool;
  userLocation : option Coordinates
}.

(** [useState] cells of [MapScreen]. *)
Record MapState := {
  selectedPlace : option Place;
  searchHistory : list Place;
  region : Region
}.

(** The world outside the components.  [storage] is the value under the key
    ['searchHistory'] ([None]: the key is absent); [JSON.stringify] followed by
    [JSON.parse] is the identity on lists of [Place], so the slot holds the
    list itself.  AsyncStorage serves its operations in the order they were
    issued, so the pending ones form a queue. *)
Record Runtime := {
  clock : nat;
  timers : list Timer;
  nextTimer : nat;
  storage : option (list Place);
  storageQueue : list StorageOp;
  lookups : list Lookup;
  detailRequests : list (nat * Place);
  nextRequest : nat;
  trace : list Effect
}.

(** [debounceTimer] is the handle held by the cleanup function of the last run
    of the debounce effect. *)
Record World := {
  search : SearchState;
  screen : MapState;
  debounceTimer : option nat;
  rt : Runtime
}.

(** *** State setters *)

Definition with_search (f : SearchState -> SearchState) (w : World) : World :=
  {| search := f (search w); screen := screen w;
     debounceTimer := debounceTimer w; rt := rt w |}.

Definition with_screen (f : MapState -> MapState) (w : World) : World :=
  {| search := search w; screen := f (screen w);
     debounceTimer := debounceTimer w; rt := rt w |}.

Definition with_rt (f : Runtime -> Runtime) (w : World) : World :=
  {| search := search w; screen := screen w;
     debounceTimer := debounceTimer w; rt := f (rt w) |}.

Definition set_debounceTimer (h : option nat) (w : World) : World :=
  {| search := search w; screen := screen w; debounceTimer := h; rt := rt w |}.

Definition setSearchText (v : string) : World -> World :=
  with_search (fun s =>
    {| searchText := v; predictions := predictions s; loading := loading s;
       recentSearches := recentSearches s; isInputFocused := isInputFocused s;
       userLocation := userLocation s |}).

Definition setPredictions (v : list Place) : World -> World :=
  with_search (fun s =>
    {| searchText := searchText s; predictions := v; loading := loading s;
       recentSearches := recentSearches s; isInputFocused := isInputFocused s;
       userLocation := userLocation s |}).

Definition setLoading (v : bool) : World -> World :=
  with_search (fun s =>
    {| searchText := searchText s; predictions := predictions s; loading := v;
       recentSearches := recentSearches s; isInputFocused := isInputFocused s;
       userLocation := userLocation s |}).

Definition setRecentSearches (v : list Place) : World -> World :=
  with_search (fun s =>
    {| searchText := searchText s; predictions := predictions s;
       loading := loading s; recentSearches := v;
       isInputFocused := isInputFocused s; userLocation := userLocation s |}).

Definition setIsInputFocused (v : bool) : World -> World :=
  with_search (fun s =>
    {| searchText := searchText s; predictions := predictions s;
       loading := loading s; recentSearches := recentSearches s;
       isInputFocused := v; userLocation := userLocation s |}).

Definition setUserLocation (v : option Coordinates) : World -> World :=
  with_search (fun s =>
    {| searchText := searchText s; predictions := predictions s;
       loading := loading s; recentSearches := recentSearches s;
       isInputFocused := isInputFocused s; userLocation := v |}).

Definition setSelectedPlace (v : option Place) : World -> World :=
  with_screen (fun m =>
    {| selectedPlace := v; searchHistory := searchHistory m; region := region m |}).

Definition setSearchHistory (v : list Place) : World -> World :=
  with_screen (fun m =>
    {| selectedPlace := selectedPlace m; searchHistory := v; region := region m |}).

Definition setRegion (v : Region) : World -> World :=
  with_screen (fun m =>
    {| selectedPlace := selectedPlace m; searchHistory := searchHistory m;
       region := v |}).

Definition set_clock (v : nat) : World -> World :=
  with_rt (fun r =>
    {| clock := v; timers := timers r; nextTimer := nextTimer r;
       storage := storage r; storageQueue := storageQueue r;
       lookups := lookups r; detailRequests := detailRequests r;
       nextRequest := nextRequest r; trace := trace r |}).

Definition set_timers (v : list Timer) : World -> World :=
  with_rt (fun r =>
    {| clock := clock r; timers := v; nextTimer := nextTimer r;
       storage := storage r; storageQueue := storageQueue r;
       lookups := lookups r; detailRequests := detailRequests r;
       nextRequest := nextRequest r; trace := trace r |}).

Definition set_nextTimer (v : nat) : World -> World :=
  with_rt (fun r =>
    {| clock := clock r; timers := timers r; nextTimer := v;
       storage := storage r; storageQueue := storageQueue r;
       lookups := lookups r; detailRequests := detailRequests r;
       nextRequest := nextRequest r; trace := trace r |}).

Definition set_storage (v : option (list Place)) : World -> World :=
  with_rt (fun r =>
    {| clock := clock r; timers := timers r; nextTimer := nextTimer r;
       storage := v; storageQueue := storageQueue r;
       lookups := lookups r; detailRequests := detailRequests r;
       nextRequest := nextRequest r; trace := trace r |}).

Definition set_storageQueue (v : list StorageOp) : World -> World :=
  with_rt (fun r =>
    {| clock := clock r; timers := timers r; nextTimer := nextTimer r;
       storage := storage r; storageQueue := v;
       lookups := lookups r; detailRequests := detailRequests r;
       nextRequest := nextRequest r; trace := trace r |}).

Definition set_lookups (v : list Lookup) : World -> World :=
  with_rt (fun r =>
    {| clock := clock r; timers := timers r; nextTimer := nextTimer r;
       storage := storage r; storageQueue := storageQueue r;
       lookups := v; detailRequests := detailRequests r;
       nextRequest := nextRequest r; trace := trace r |}).

Definition set_detailRequests (v : list (nat * Place)) : World -> World :=
  with_rt (fun r =>
    {| clock := clock r; timers := timers r; nextTimer := nextTimer r;
       storage := storage r; storageQueue := storageQueue r;
       lookups := lookups r; detailRequests := v;
       nextRequest := nextRequest r; trace := trace r |}).

Definition set_nextRequest (v : nat) : World -> World :=
  with_rt (fun r =>
    {| clock := clock r; timers := timers r; nextTimer := nextTimer r;
       storage := storage r; storageQueue := storageQueue r;
       lookups := lookups r; detailRequests := detailRequests r;
       nextRequest := v; trace := trace r |}).

Definition emit (e : Effect) : World -> World :=
  with_rt (fun r =>
    {| clock := clock r; timers := timers r; nextTimer := nextTimer r;
       storage := storage r; storageQueue := storageQueue r;
       lookups := lookups r; detailRequests := detailRequests r;
       nextRequest := nextRequest r; trace := e :: trace r |}).

(** *** Runtime calls *)

Definition consoleError (message : string) : World -> World :=
  emit (ConsoleError message).

(** [AsyncStorage.getItem('searchHistory')], awaited by [k]. *)
Definition getItem (k : GetAwaiter) (w : World) : World :=
  set_storageQueue (storageQueue (rt w) ++ [GetItem k]) (emit CallGetItem w).

(** [AsyncStorage.setItem('searchHistory', JSON.stringify(value))], awaited
    by [k]. *)
Definition setItem (value : list Place) (k : SetAwaiter) (w : World) : World :=
  set_storageQueue (storageQueue (rt w) ++ [SetItem value k])
    (emit (CallSetItem value) w).

(** [setTimeout(fetchPredictions, delay)] in a render whose state is [w];
    the handle is [nextTimer] of the world before the call. *)
Definition setTimeout (delay : nat) (w : World) : World :=
  let id := nextTimer (rt w) in
  let t := {| timer_id := id; deadline := clock (rt w) + delay;
              timer_text := searchText (search w);
              timer_location := userLocation (search w) |} in
  set_nextTimer (S id) (set_timers (timers (rt w) ++ [t])
    (emit (CallSetTimeout id delay) w)).

(** [clearTimeout(id)]: a handle that already fired is ignored. *)
Definition clearTimeout (id : nat) (w : World) : World :=
  set_timers (filter (fun t => timer_id t <> id) (timers (rt w)))
    (emit (CallClearTimeout id) w).

(** ** MapScreen.tsx *)

Module MapScreen.

(** A region centred on [c] with the deltas 0.0922 and 0.0421 the source
    uses throughout. *)
Definition regionAt (c : Coordinates) : Region :=
  {| center := c; latitudeDelta := 92200; longitudeDelta := 42100 |}.

(** The [useState] initial value of [region]: 37.78825, -122.4324. *)
Definition initialRegion : Region :=
  regionAt {| latitude := 37788250; longitude := -122432400 |}.

Definition initialState : MapState :=
  {| selectedPlace := None; searchHistory := []; region := initialRegion |}.

(** [loadSearchHistory], up to its [await]. *)
Definition loadSearchHistory (w : World) : World :=
  getItem LoadSearchHistory w.

(** [loadSearchHistory], after the [await]: [if (history)] skips an absent
    key. *)
Definition loadSearchHistory_resume
    (r : Settled (option (list Place))) (w : World) : World :=
  match r with
  | Fulfilled (Some history) => setSearchHistory history w
  | Fulfilled None => w
  | Rejected => consoleError "Error loading search history:" w
  end.

(** [saveSearchHistory], up to its [await]: the new list is built from the
    in-memory [searchHistory] and sent to the store. *)
Definition saveSearchHistory (place : Place) (w : World) : World :=
  let newHistory := take 10 (place :: searchHistory (screen w)) in
  setItem newHistory (SavedSearchHistory newHistory) w.

(** [saveSearchHistory], after the [await]. *)
Definition saveSearchHistory_resume
    (newHistory : list Place) (r : Settled unit) (w : World) : World :=
  match r with
  | Fulfilled _ => setSearchHistory newHistory w
  | Rejected => consoleError "Error saving search history:" w
  end.

(** [axios.get] of the place-details endpoint. *)
Definition getPlaceDetails (place : Place) (w : World) : World :=
  let id := nextRequest (rt w) in
  set_nextRequest (S id)
    (set_detailRequests (detailRequests (rt w) ++ [(id, place)])
       (emit (CallPlaceDetails (place_id place)) w)).

(** [handlePlaceSelect], up to its [await]; [saveSearchHistory] is called
    without [await], so only its synchronous part runs here. *)
Definition handlePlaceSelect (place : Place) (w : World) : World :=
  let w := setSelectedPlace (Some place) w in
  let w := saveSearchHistory place w in
  getPlaceDetails place w.

Definition withLocation (place : Place) (l : LatLng) : Place :=
  {| place_id := place_id place; description := description place;
     structured_formatting := structured_formatting place;
     location := Some l |}.

(** [handlePlaceSelect], after the [await].  [Fulfilled None] is a body
    without [result.geometry.location], on which the property access throws
    inside the [try]. *)
Definition handlePlaceSelect_resume
    (place : Place) (r : Settled (option LatLng)) (w : World) : World :=
  match r with
  | Fulfilled (Some l) =>
      let w := setSelectedPlace (Some (withLocation place l)) w in
      setRegion (regionAt {| latitude := lat l; longitude := lng l |}) w
  | Fulfilled None | Rejected =>
      consoleError "Error fetching place details:" w
  end.

(** [getUserLocation], after its awaits: [Fulfilled None] is a denied
    permission. *)
Definition getUserLocation_resume
    (r : Settled (option Coordinates)) (w : World) : World :=
  match r with
  | Fulfilled (Some c) => setRegion (regionAt c) w
  | Fulfilled None => w
  | Rejected => consoleError "Error getting location:" w
  end.

(** The [coordinate] prop of the rendered [Marker]; [None] when no marker
    is rendered. *)
Definition marker (w : World) : option Coordinates :=
  match selectedPlace (screen w) with
  | None => None
  | Some p =>
      Some match location p with
           | Some l => {| latitude := lat l; longitude := lng l |}
           | None => center (region (screen w))
           end
  end.

End MapScreen.

(** ** PlacesSearch.tsx *)

Module PlacesSearch.

Definition initialState : SearchState :=
  {| searchText := ""; predictions := []; loading := false;
     recentSearches := []; isInputFocused := false; userLocation := None |}.

(** [loadRecentSearches], up to its [await] and after it. *)
Definition loadRecentSearches (w : World) : World :=
  getItem LoadRecentSearches w.

Definition loadRecentSearches_resume
    (r : Settled (option (list Place))) (w : World) : World :=
  match r with
  | Fulfilled (Some history) => setRecentSearches history w
  | Fulfilled None => w
  | Rejected => consoleError "Error loading recent searches:" w
  end.

(** The [.map] callback of [fetchPredictions]: an empty secondary text is
    falsy, so the description is then the main text alone. *)
Definition toPlace (s : Prediction) : Place :=
  let main := mainText (structuredFormat s) in
  let secondary := secondaryText (structuredFormat s) in
  {| place_id := placeId s;
     description :=
       main +:+ (if decide (secondary = "") then "" else " - " +:+ secondary);
     structured_formatting :=
       {| main_text := main; secondary_text := secondary |};
     location := None |}.

(** [.filter(suggestion => suggestion.placePrediction).map(..)]. *)
Definition transformedPredictions (l : list PlacePrediction) : list Place :=
  toPlace <$> omap placePrediction l.

(** [axios.post] of the autocomplete endpoint. *)
Definition postAutocomplete
    (input : string) (bias : option Coordinates) (w : World) : World :=
  let id := nextRequest (rt w) in
  let q := {| lookup_id := id; lookup_input := input; lookup_bias := bias |} in
  set_nextRequest (S id)
    (set_lookups (lookups (rt w) ++ [q]) (emit (CallAutocomplete input bias) w)).

(** [fetchPredictions], up to its [await].  [text] and [bias] are the
    [searchText] and [userLocation] of the render that created the closure. *)
Definition fetchPredictions
    (text : string) (bias : option Coordinates) (w : World) : World :=
  if (String.length text <? 2)%nat then setPredictions [] w
  else postAutocomplete text bias (setLoading true w).

(** [fetchPredictions], after the [await]: [try] / [catch] / [finally]. *)
Definition fetchPredictions_resume
    (r : Settled AutocompleteResponse) (w : World) : World :=
  let w :=
    match r with
    | Fulfilled {| suggestions := Some l |} =>
        setPredictions (transformedPredictions l) w
    | Fulfilled {| suggestions := None |} | Rejected =>
        consoleError "Error fetching predictions:" w
    end in
  setLoading false w.

(** The cleanup function returned by the debounce effect. *)
Definition debounceCleanup (w : World) : World :=
  match debounceTimer w with
  | Some id => clearTimeout id w
  | None => w
  end.

(** One run of the debounce effect: the previous run's cleanup, then
    [setTimeout(fetchPredictions, 300)]. *)
Definition debounceEffect (w : World) : World :=
  let w := debounceCleanup w in
  set_debounceTimer (Some (nextTimer (rt w))) (setTimeout 300 w).

(** The render after a handler that left [userLocation] alone: the effect
    runs again only when [searchText] differs from the previous render's
    ([apiKey] is a prop that never changes). *)
Definition commit (prev : World) (w : World) : World :=
  if decide (searchText (search prev) = searchText (search w)) then w
  else debounceEffect w.

(** [getUserLocation], after its awaits.  [setUserLocation] is given a fresh
    object, so the effect's dependency always changes. *)
Definition getUserLocation_resume
    (r : Settled (option Coordinates)) (w : World) : World :=
  match r with
  | Fulfilled (Some c) => debounceEffect (setUserLocation (Some c) w)
  | Fulfilled None => w
  | Rejected => consoleError "Error getting location:" w
  end.

(** The list [saveToRecentSearches] computes from what [getItem] returned:
    drop the entries with the place's id, put the place first, keep ten. *)
Definition updatedRecentSearches
    (place : Place) (history : option (list Place)) : list Place :=
  let recentSearches := match history with Some l => l | None => [] end in
  let recentSearches :=
    filter (fun p => place_id p <> place_id place) recentSearches in
  let recentSearches := place :: recentSearches in
  take 10 recentSearches.

(** [saveToRecentSearches], up to its first [await]. *)
Definition saveToRecentSearches (place : Place) (w : World) : World :=
  getItem (SaveToRecentSearches place) w.

(** [saveToRecentSearches], from the first [await] to the second. *)
Definition saveToRecentSearches_read
    (place : Place) (r : Settled (option (list Place))) (w : World) : World :=
  match r with
  | Fulfilled history =>
      let recentSearches := updatedRecentSearches place history in
      setItem recentSearches (SavedRecentSearches recentSearches) w
  | Rejected => consoleError "Error saving to recent searches:" w
  end.

(** [saveToRecentSearches], after the second [await]. *)
Definition saveToRecentSearches_written
    (recentSearches : list Place) (r : Settled unit) (w : World) : World :=
  match r with
  | Fulfilled _ => setRecentSearches recentSearches w
  | Rejected => consoleError "Error saving to recent searches:" w
  end.

(** [handlePlaceSelect], up to its [await]; [onPlaceSelect] is the prop. *)
Definition handlePlaceSelect
    (onPlaceSelect : Place -> World -> World) (place : Place) (w : World)
  : World :=
  let w := onPlaceSelect place (emit (CallOnPlaceSelect place) w) in
  let w := setSearchText "" w in
  let w := setPredictions [] w in
  let w := setIsInputFocused false w in
  let w := emit KeyboardDismiss w in
  saveToRecentSearches place w.

(** [handleClear]; the calls on the native input are not state. *)
Definition handleClear (w : World) : World :=
  let w := setSearchText "" w in
  let w := setPredictions [] w in
  let w := setIsInputFocused false w in
  emit KeyboardDismiss w.

Definition handleTextChange (text : string) (w : World) : World :=
  let w := setSearchText text w in
  if (String.length text =? 0)%nat then
    setIsInputFocused false (setPredictions [] w)
  else
    setIsInputFocused true w.

(** [toLowerCase] on ASCII letters. *)
Definition lowerAscii (c : ascii) : ascii :=
  let n := nat_of_ascii c in
  if ((65 <=? n) && (n <=? 90))%nat then ascii_of_nat (n + 32) else c.

Fixpoint toLowerCase (s : string) : string :=
  match s with
  | EmptyString => EmptyString
  | String c s' => String (lowerAscii c) (toLowerCase s')
  end.

(** [s.includes(sub)]. *)
Fixpoint includes (s sub : string) : bool :=
  String.prefix sub s ||
  match s with
  | EmptyString => false
  | String _ s' => includes s' sub
  end.

Definition matchesSearch (text : string) (place : Place) : bool :=
  (String.length text =? 0)%nat
  || includes (toLowerCase (main_text (structured_formatting place)))
              (toLowerCase text)
  || includes (toLowerCase (secondary_text (structured_formatting place)))
              (toLowerCase text).

Definition filteredRecentSearches (w : World) : list Place :=
  List.filter (matchesSearch (searchText (search w)))
              (recentSearches (search w)).

Definition showSuggestions (w : World) : bool :=
  isInputFocused (search w)
  && ((0 <? length (filteredRecentSearches w))%nat
      || (0 <? length (predictions (search w)))%nat).

(** The items that carry an [onPress] handler in the current render. *)
Definition pressable (w : World) : list Place :=
  if showSuggestions w then filteredRecentSearches w ++ predictions (search w)
  else [].

End PlacesSearch.

(** ** The event loop *)

(** What can happen to the mounted application.  The blur timer of the input
    (200 ms, resets the focus flag only) is outside the modelled fragment. *)
Inductive Event :=
| ChangeText (text : string)          (* onChangeText of the input *)
| Focus                               (* onFocus of the input *)
| PressItem (place : Place)           (* onPress of a history entry or suggestion *)
| PressClear                          (* onPress of the clear button *)
| Elapse (ms : nat)                   (* time passes, due timers fire *)
| StorageSettles (ok : bool)          (* the oldest AsyncStorage operation settles *)
| AutocompleteSettles (id : nat) (r : Settled AutocompleteResponse)
| DetailsSettle (id : nat) (r : Settled (option LatLng))
| SearchLocationSettles (r : Settled (option Coordinates))
| ScreenLocationSettles (r : Settled (option Coordinates)).

(** The timer callback: [fetchPredictions] of the render that set the timer. *)
Definition fire (w : World) (t : Timer) : World :=
  PlacesSearch.fetchPredictions (timer_text t) (timer_location t) w.

(** [ms] milliseconds pass.  Timers whose delay has fully elapsed fire, oldest
    first (all delays are equal, so creation order is deadline order). *)
Definition elapse (ms : nat) (w : World) : World :=
  let now := clock (rt w) + ms in
  let due := filter (fun t => deadline t <= now) (timers (rt w)) in
  let pending := filter (fun t => ~ deadline t <= now) (timers (rt w)) in
  foldl fire (set_timers pending (set_clock now w)) due.

(** The oldest pending AsyncStorage operation settles and its awaiter
    resumes.  A write that succeeds replaces the slot; a read returns the slot
    as it is at that moment. *)
Definition storageSettles (ok : bool) (w : World) : World :=
  match storageQueue (rt w) with
  | [] => w
  | GetItem k :: rest =>
      let w := set_storageQueue rest w in
      let r := if ok then Fulfilled (storage (rt w)) else Rejected in
      match k with
      | LoadRecentSearches => PlacesSearch.loadRecentSearches_resume r w
      | LoadSearchHistory => MapScreen.loadSearchHistory_resume r w
      | SaveToRecentSearches place =>
          PlacesSearch.saveToRecentSearches_read place r w
      end
  | SetItem value k :: rest =>
      let w := set_storageQueue rest w in
      let w := if ok then set_storage (Some value) w else w in
      let r := if ok then Fulfilled tt else Rejected in
      match k with
      | SavedSearchHistory newHistory =>
          MapScreen.saveSearchHistory_resume newHistory r w
      | SavedRecentSearches recentSearches =>
          PlacesSearch.saveToRecentSearches_written recentSearches r w
      end
  end.

Definition autocompleteSettles
    (id : nat) (r : Settled AutocompleteResponse) (w : World) : World :=
  if decide (id ∈ lookup_id <$> lookups (rt w)) then
    PlacesSearch.fetchPredictions_resume r
      (set_lookups (filter (fun q => lookup_id q <> id) (lookups (rt w))) w)
  else w.

Definition detailsSettle
    (id : nat) (r : Settled (option LatLng)) (w : World) : World :=
  match list_find (fun x => fst x = id) (detailRequests (rt w)) with
  | Some (_, (_, place)) =>
      MapScreen.handlePlaceSelect_resume place r
        (set_detailRequests
           (filter (fun x => fst x <> id) (detailRequests (rt w))) w)
  | None => w
  end.

Definition handleFocus (w : World) : World :=
  let w := setIsInputFocused true w in
  if (String.length (searchText (search w)) =? 0)%nat
  then PlacesSearch.loadRecentSearches w else w.

(** One turn of the event loop, followed by the render it causes, for
    [PlacesSearch] rendered with the prop [onPlaceSelect]. *)
Definition stepWith
    (onPlaceSelect : Place -> World -> World) (w : World) (e : Event) : World :=
  match e with
  | ChangeText text =>
      PlacesSearch.commit w (PlacesSearch.handleTextChange text w)
  | Focus => handleFocus w
  | PressItem place =>
      PlacesSearch.commit w
        (PlacesSearch.handlePlaceSelect onPlaceSelect place w)
  | PressClear => PlacesSearch.commit w (PlacesSearch.handleClear w)
  | Elapse ms => elapse ms w
  | StorageSettles ok => storageSettles ok w
  | AutocompleteSettles id r => autocompleteSettles id r w
  | DetailsSettle id r => detailsSettle id r w
  | SearchLocationSettles r => PlacesSearch.getUserLocation_resume r w
  | ScreenLocationSettles r => MapScreen.getUserLocation_resume r w
  end.

(** The application: [MapScreen] renders
    [<PlacesSearch onPlaceSelect={handlePlaceSelect} />]. *)
Definition step (w : World) (e : Event) : World :=
  stepWith MapScreen.handlePlaceSelect w e.

Definition run (w : World) (es : list Event) : World := foldl step w es.

(** [PlacesSearch] on its own, with a callback that does nothing. *)
Definition runAlone (w : World) (es : list Event) : World :=
  foldl (stepWith (fun _ w => w)) w es.

(** The application before its mount effects, over a store holding [stored]. *)
Definition unmounted (stored : option (list Place)) : World :=
  {| search := PlacesSearch.initialState;
     screen := MapScreen.initialState;
     debounceTimer := None;
     rt := {| clock := 0; timers := []; nextTimer := 0;
              storage := stored; storageQueue := [];
              lookups := []; detailRequests := []; nextRequest := 0;
              trace := [] |} |}.

(** The mount effects, children first: [PlacesSearch] loads the recent
    searches and starts the debounce effect, then [MapScreen] loads the
    search history.  The two [getUserLocation] calls settle later, as
    [SearchLocationSettles] and [ScreenLocationSettles]. *)
Definition mount (stored : option (list Place)) : World :=
  MapScreen.loadSearchHistory
    (PlacesSearch.debounceEffect
       (PlacesSearch.loadRecentSearches (unmounted stored))).

(** Whether the event can occur in this world: an edit reports a text that
    differs from the current one, a pressed item is on screen, a settling
    operation is outstanding. *)
Definition enabled (w : World) (e : Event) : bool :=
  match e with
  | ChangeText text => bool_decide (text <> searchText (search w))
  | PressItem place => bool_decide (place ∈ PlacesSearch.pressable w)
  | PressClear => (0 <? String.length (searchText (search w)))%nat
  | StorageSettles _ => bool_decide (storageQueue (rt w) <> [])
  | AutocompleteSettles id _ =>
      bool_decide (id ∈ lookup_id <$> lookups (rt w))
  | DetailsSettle id _ => bool_decide (id ∈ fst <$> detailRequests (rt w))
  | Focus | Elapse _ | SearchLocationSettles _ | ScreenLocationSettles _ => true
  end.

Fixpoint feasible (w : World) (es : list Event) : bool :=
  match es with
  | [] => true
  | e :: es => enabled w e && feasible (step w e) es
  end.

(** *** Observations on the trace *)

Definition isSetItem (e : Effect) : bool :=
  match e with CallSetItem _ => true | _ => false end.

Definition isOnPlaceSelect (e : Effect) : bool :=
  match e with CallOnPlaceSelect _ => true | _ => false end.

Definition isAutocomplete (e : Effect) : bool :=
  match e with CallAutocomplete _ _ => true | _ => false end.

(** The effects recorded beyond the first [n], the oldest [n] being at the
    end of the trace. *)
Definition sinceTrace (n : nat) (t : list Effect) : list Effect :=
  take (length t - n) t.

Definition since (n : nat) (w' : World) : list Effect :=
  sinceTrace n (trace (rt w')).

Definition writesSince (n : nat) (w' : World) : nat :=
  length (List.filter isSetItem (since n w')).

Definition callbacksSince (n : nat) (w' : World) : list Place :=
  omap (fun e => match e with CallOnPlaceSelect p => Some p | _ => None end)
       (since n w').

(** The inputs of the autocomplete calls issued, oldest first. *)
Definition autocompleteInputs (es : list Effect) : list string :=
  omap (fun e => match e with CallAutocomplete i _ => Some i | _ => None end)
       (rev es).

(** ** Vocabulary of the properties *)

(** The invariant the specification states for a History List: no two
    entries share an id, and there are at most ten entries. *)
Definition history_invariant (l : list Place) : Prop :=
  NoDup (place_id <$> l) /\ length l <= 10.

(** The list in the store, the empty list when the key is absent. *)
Definition persisted (w : World) : list Place :=
  default [] (storage (rt w)).

(** Every list in the store, or on its way to it, is [good]. *)
Definition opGood (good : list Place -> Prop) (op : StorageOp) : Prop :=
  match op with
  | GetItem _ => True
  | SetItem value _ => good value
  end.

Definition storeGood (good : list Place -> Prop) (w : World) : Prop :=
  good (persisted w) /\ Forall (opGood good) (storageQueue (rt w)).

(** A selection and the settling of the storage operations it issues: the
    write of [MapScreen.saveSearchHistory], then the read and the write of
    [PlacesSearch.saveToRecentSearches]. *)
Definition selection (place : Place) (mapWrite read write : bool) : list Event :=
  [PressItem place; StorageSettles mapWrite; StorageSettles read;
   StorageSettles write].

(** A lookup that fails: the request rejects (network error, non-2xx status)
    or the body has no [suggestions] array. *)
Definition lookupFailed (r : Settled AutocompleteResponse) : bool :=
  match r with
  | Fulfilled {| suggestions := Some _ |} => false
  | Fulfilled {| suggestions := None |} | Rejected => true
  end.

Definition detailsFailed (r : Settled (option LatLng)) : bool :=
  match r with
  | Fulfilled (Some _) => false
  | Fulfilled None | Rejected => true
  end.

(** The pending timers all belong to the debounce effect: there is at most
    one, and the effect's cleanup holds its handle. *)
Definition debounceOwned (w : World) : Prop :=
  match timers (rt w) with
  | [] => True
  | [t] => debounceTimer w = Some (timer_id t)
  | _ => False
  end.

(** The debounce effect is armed for [text]: its timer is the only pending
    one, carries the current [searchText] and [userLocation], and is due at
    [due]. *)
Definition armed (w : World) (text : string) (due : nat) : Prop :=
  exists id,
    timers (rt w) = [{| timer_id := id; deadline := due; timer_text := text;
                        timer_location := userLocation (search w) |}]
    /\ debounceTimer w = Some id
    /\ searchText (search w) = text.

(** The autocomplete calls a burst ending in the text [final] adds: one call
    carrying [final] when it has at least two characters, none otherwise. *)
Definition lookupFor (final : string) : list string :=
  if (2 <=? String.length final)%nat then [final] else [].

(** A burst of edits: a first edit, further edits each [gap] milliseconds
    after the one before, then [quiet] milliseconds without an edit. *)
Fixpoint edits (rest : list (nat * string)) : list Event :=
  match rest with
  | [] => []
  | (gap, text) :: rest => Elapse gap :: ChangeText text :: edits rest
  end.

Definition burst (first : string) (rest : list (nat * string)) (quiet : nat)
  : list Event :=
  ChangeText first :: edits rest ++ [Elapse quiet].

Definition finalText (first : string) (rest : list (nat * string)) : string :=
  List.last (snd <$> rest) first.

(** The claim "exactly one call, carrying the final text" about a burst run
    from [w] to [w']. *)
Definition exactlyOneCall (w w' : World) (final : string) : Prop :=
  autocompleteInputs (trace (rt w'))
  = autocompleteInputs (trace (rt w)) ++ [final].

(** The trimmed length the specification speaks of: the length of the text
    without its leading and trailing white space ([String.prototype.trim] on
    ASCII).  The source never trims; this definition follows the
    specification's words and serves to state its claim. *)
Definition isWhiteSpace (c : ascii) : bool :=
  let n := nat_of_ascii c in
  ((9 <=? n) && (n <=? 13) || (n =? 32))%nat.

Fixpoint trimStart (s : string) : string :=
  match s with
  | String c s' => if isWhiteSpace c then trimStart s' else s
  | EmptyString => EmptyString
  end.

Definition spec_trim (s : string) : string :=
  String.rev (trimStart (String.rev (trimStart s))).

Definition spec_trimmedLength (s : string) : nat :=
  String.length (spec_trim s).

(** *** Sample data *)

Definition suggestion (id main secondary : string) : PlacePrediction :=
  {| placePrediction :=
       Some {| placeId := id;
               structuredFormat :=
                 {| mainText := main; secondaryText := secondary |} |} |}.

Definition eiffelSuggestion : PlacePrediction :=
  suggestion "p1" "Eiffel Tower" "Paris, France".

Definition eigerSuggestion : PlacePrediction :=
  suggestion "p2" "Eiger" "Bern, Switzerland".

Definition berlinSuggestion : PlacePrediction :=
  suggestion "p3" "Berlin" "Germany".

Definition eiffel : Place :=
  Eval cbv in
    match PlacesSearch.transformedPredictions [eiffelSuggestion] with
    | p :: _ => p
    | [] => PlacesSearch.toPlace {| placeId := ""; structuredFormat :=
                                      {| mainText := ""; secondaryText := "" |} |}
    end.

Definition eiger : Place :=
  Eval cbv in
    match PlacesSearch.transformedPredictions [eigerSuggestion] with
    | p :: _ => p
    | [] => eiffel
    end.

Definition berlin : Place :=
  Eval cbv in
    match PlacesSearch.transformedPredictions [berlinSuggestion] with
    | p :: _ => p
    | [] => eiffel
    end.

Definition fulfilled (l : list PlacePrediction) : Settled AutocompleteResponse :=
  Fulfilled {| suggestions := Some l |}.

(** The application mounted over an empty store, once its two initial reads
    have settled. *)
Definition mounted : World :=
  run (mount None) [StorageSettles true; StorageSettles true].

(** Typing "ei" and waiting for the suggestions: the lookup is request [id]. *)
Definition typeEi (id : nat) : list Event :=
  [ChangeText "ei"; Elapse 300;
   AutocompleteSettles id (fulfilled [eiffelSuggestion; eigerSuggestion])].

(** Select the Eiffel Tower from the suggestions, select it again from the
    recent searches, then select the Eiger from the suggestions; every
    storage operation succeeds. *)
Definition reselectRun : list Event :=
  typeEi 0 ++ selection eiffel true true true
  ++ [ChangeText "e"] ++ selection eiffel true true true
  ++ typeEi 3 ++ selection eiger true true true.

(** Query "ei", then query "be" while the first lookup is still in flight;
    the second response arrives first. *)
Definition outOfOrderRun : list Event :=
  [ChangeText "ei"; Elapse 300; ChangeText "be"; Elapse 300;
   AutocompleteSettles 1 (fulfilled [berlinSuggestion]);
   AutocompleteSettles 0 (fulfilled [eiffelSuggestion; eigerSuggestion])].

(** The lists handed to [AsyncStorage.setItem], most recent first. *)
Definition writtenValues (es : list Effect) : list (list Place) :=
  omap (fun e => match e with CallSetItem v => Some v | _ => None end) es.

(** The claim "one record to the callback, one write to the store" about the
    effects a selection of [place] has recorded beyond the first [n]. *)
Definition oneCallbackOneWrite (n : nat) (place : Place) (w' : World) : Prop :=
  callbacksSince n w' = [place] /\ writesSince n w' = 1.


(** ** Proof tools *)

(** Unfold one turn of the loop down to the setters, leaving the list
    computations of the source as they are. *)
Ltac turn :=
  cbn -[take filter sinceTrace autocompleteInputs
        PlacesSearch.updatedRecentSearches
        PlacesSearch.transformedPredictions].

(** Split on whether the render re-runs the debounce effect, and on whether
    its cleanup holds a handle. *)
Ltac split_commit :=
  unfold PlacesSearch.commit, PlacesSearch.debounceEffect,
    PlacesSearch.debounceCleanup;
  try match goal with
    | |- context [decide (?a = ?b)] => destruct (decide (a = b))
    end;
  turn;
  try match goal with
    | |- context [debounceTimer ?w] => is_var w; destruct (debounceTimer w)
    end;
  turn.

Lemma sinceTrace_here (t : list Effect) : sinceTrace (length t) t = [].
Proof. unfold sinceTrace. by rewrite Nat.sub_diag. Qed.

Lemma sinceTrace_cons (n : nat) (e : Effect) (t : list Effect) :
  n <= length t -> sinceTrace n (e :: t) = e :: sinceTrace n t.
Proof.
  intros H. unfold sinceTrace. cbn [length].
  by replace (S (length t) - n) with (S (length t - n)) by lia.
Qed.

Ltac since_here :=
  rewrite ?sinceTrace_cons by (cbn [length]; lia); rewrite ?sinceTrace_here.

(** ** The history list *)

Section History.
Implicit Types (l history : list Place) (place p : Place) (id : string).

Lemma filter_absent_id id l :
  id ∉ place_id <$> l -> filter (fun p => place_id p <> id) l = l.
Proof.
  induction l as [|p l IH]; intros Hnot; [done|].
  rewrite fmap_cons, not_elem_of_cons in Hnot. destruct Hnot as [Hne Hnot].
  rewrite filter_cons_True by congruence. by rewrite IH.
Qed.

Lemma filter_present_id_length id l :
  NoDup (place_id <$> l) -> id ∈ place_id <$> l ->
  S (length (filter (fun p => place_id p <> id) l)) = length l.
Proof.
  induction l as [|p l IH]; intros Hnd Hin.
  - by apply elem_of_nil in Hin.
  - rewrite fmap_cons in Hnd, Hin. apply NoDup_cons in Hnd as [Hp Hnd].
    destruct (decide (place_id p = id)) as [Heq|Hne].
    + rewrite filter_cons_False by (intros H; by apply H).
      subst id. by rewrite filter_absent_id.
    + rewrite filter_cons_True by done. cbn [length]. f_equal.
      apply IH; [done|]. apply elem_of_cons in Hin as [Heq|Hin]; [|done].
      by destruct Hne.
Qed.

Lemma filter_id_NoDup id l :
  NoDup (place_id <$> l) ->
  NoDup (place_id <$> filter (fun p => place_id p <> id) l).
Proof.
  intros Hnd. eapply sublist_NoDup; [exact Hnd|].
  apply fmap_sublist, sublist_filter.
Qed.

Lemma updatedRecentSearches_length place (stored : option (list Place)) :
  length (PlacesSearch.updatedRecentSearches place stored) <= 10.
Proof. unfold PlacesSearch.updatedRecentSearches. rewrite length_take. lia. Qed.

Lemma updatedRecentSearches_head place (stored : option (list Place)) :
  head (PlacesSearch.updatedRecentSearches place stored) = Some place.
Proof. reflexivity. Qed.

Lemma updatedRecentSearches_NoDup place (stored : option (list Place)) :
  NoDup (place_id <$> default [] stored) ->
  NoDup (place_id <$> PlacesSearch.updatedRecentSearches place stored).
Proof.
  intros Hnd. unfold PlacesSearch.updatedRecentSearches.
  eapply sublist_NoDup; [|apply fmap_sublist, sublist_take].
  rewrite fmap_cons. apply NoDup_cons. split.
  - rewrite list_elem_of_fmap. intros (p & Hid & Hp).
    apply list_elem_of_filter in Hp as [Hp _]. by apply Hp.
  - destruct stored as [l|]; cbn in *; [by apply filter_id_NoDup|].
    constructor.
Qed.

Lemma updatedRecentSearches_invariant place (stored : option (list Place)) :
  history_invariant (default [] stored) ->
  history_invariant (PlacesSearch.updatedRecentSearches place stored).
Proof.
  intros [Hnd _]. split;
    [by apply updatedRecentSearches_NoDup | apply updatedRecentSearches_length].
Qed.

Lemma updatedRecentSearches_existing place history :
  history_invariant history -> place_id place ∈ place_id <$> history ->
  length (PlacesSearch.updatedRecentSearches place (Some history))
  = length history.
Proof.
  intros [Hnd Hlen] Hin. unfold PlacesSearch.updatedRecentSearches.
  rewrite length_take. cbn [length].
  rewrite (filter_present_id_length _ _ Hnd Hin). lia.
Qed.
End History.

(** ** What reaches the store *)

(** Firing a timer touches neither the store nor its queue. *)
Lemma fire_store (w : World) (t : Timer) :
  storage (rt (fire w t)) = storage (rt w)
  /\ storageQueue (rt (fire w t)) = storageQueue (rt w).
Proof.
  unfold fire, PlacesSearch.fetchPredictions.
  by destruct (String.length (timer_text t) <? 2)%nat.
Qed.

Lemma foldl_fire_store (ts : list Timer) (w : World) :
  storage (rt (foldl fire w ts)) = storage (rt w)
  /\ storageQueue (rt (foldl fire w ts)) = storageQueue (rt w).
Proof.
  revert w. induction ts as [|t ts IH]; intros w; [done|].
  cbn [foldl]. destruct (IH (fire w t)) as [-> ->]. apply fire_store.
Qed.

Section StoreInvariant.

(** A property of lists that the list function of [saveToRecentSearches]
    preserves, and a callback that respects it. *)
Variable good : list Place -> Prop.
Variable onPlaceSelect : Place -> World -> World.
Hypothesis good_updated :
  forall place stored,
    good (default [] stored) ->
    good (PlacesSearch.updatedRecentSearches place stored).
Hypothesis good_callback :
  forall place w, storeGood good w -> storeGood good (onPlaceSelect place w).

Lemma storeGood_eq (w w' : World) :
  storage (rt w') = storage (rt w) ->
  storageQueue (rt w') = storageQueue (rt w) ->
  storeGood good w -> storeGood good w'.
Proof. unfold storeGood, persisted. by intros -> ->. Qed.

Lemma storeGood_settles (ok : bool) (w : World) :
  storeGood good w -> storeGood good (storageSettles ok w).
Proof.
  unfold storeGood, persisted, storageSettles. intros [Hs Hq].
  destruct (storageQueue (rt w)) as [|[k|value k] rest] eqn:Hqueue;
    [by rewrite Hqueue| |].
  - apply Forall_cons in Hq as [_ Hq].
    destruct k, ok; turn; try done.
    + destruct (storage (rt w)) eqn:E; turn; by rewrite ?E.
    + destruct (storage (rt w)) eqn:E; turn; by rewrite ?E.
    + split; [done|]. apply Forall_app. split; [done|].
      apply Forall_singleton. by apply good_updated.
  - apply Forall_cons in Hq as [Hv Hq]. by destruct k, ok; turn.
Qed.

Lemma storeGood_press (place : Place) (w : World) :
  storeGood good w ->
  storeGood good
    (PlacesSearch.commit w
       (PlacesSearch.handlePlaceSelect onPlaceSelect place w)).
Proof.
  intros Hb.
  assert (storeGood good (onPlaceSelect place (emit (CallOnPlaceSelect place) w)))
    as [Hs Hq] by (by apply good_callback).
  unfold storeGood, persisted in *. unfold PlacesSearch.commit.
  destruct (decide _);
    [|unfold PlacesSearch.debounceEffect, PlacesSearch.debounceCleanup; turn;
      destruct (debounceTimer _)];
    turn; (split; [done|]); apply Forall_app; (split; [done|]);
    by apply Forall_singleton.
Qed.

Lemma storeGood_step (w : World) (e : Event) :
  storeGood good w -> storeGood good (stepWith onPlaceSelect w e).
Proof.
  intros Hb. destruct e as [text| |place| |ms|ok|id r|id r|r|r];
    unfold stepWith.
  - apply (storeGood_eq w); [| |exact Hb];
      unfold PlacesSearch.handleTextChange;
      destruct (String.length text =? 0)%nat; by split_commit.
  - unfold handleFocus. turn.
    destruct (String.length (searchText (search w)) =? 0)%nat; [|done].
    destruct Hb as [Hs Hq]. split; [done|]. turn.
    apply Forall_app. split; [done|]. by apply Forall_singleton.
  - by apply storeGood_press.
  - apply (storeGood_eq w); [| |exact Hb]; by split_commit.
  - unfold elapse. cbv zeta.
    match goal with
    | |- context [foldl fire ?w0 ?ts] =>
        destruct (foldl_fire_store ts w0) as [Hstore Hqueue]
    end.
    apply (storeGood_eq w); [by rewrite Hstore|by rewrite Hqueue|exact Hb].
  - by apply storeGood_settles.
  - unfold autocompleteSettles. destruct (decide _); [|done].
    apply (storeGood_eq w); [| |exact Hb];
      by destruct r as [[[l|]]|].
  - unfold detailsSettle.
    destruct (list_find _ _) as [[? [? place]]|]; [|done].
    apply (storeGood_eq w); [| |exact Hb]; by destruct r as [[l|]|].
  - apply (storeGood_eq w); [| |exact Hb];
      destruct r as [[c|]|]; unfold PlacesSearch.getUserLocation_resume;
      try done; by split_commit.
  - apply (storeGood_eq w); [| |exact Hb]; by destruct r as [[c|]|].
Qed.

Lemma storeGood_run (es : list Event) (w : World) :
  storeGood good w -> storeGood good (foldl (stepWith onPlaceSelect) w es).
Proof.
  revert w. induction es as [|e es IH]; intros w Hb; [done|].
  apply IH. by apply storeGood_step.
Qed.

Lemma storeGood_mount (stored : option (list Place)) :
  good (default [] stored) -> storeGood good (mount stored).
Proof. intros H. split; [done|]. by repeat apply Forall_cons_2. Qed.

End StoreInvariant.

(** In the application, the stored list never has more than ten entries. *)
Theorem persisted_length_bounded (es : list Event) :
  length (persisted (run (mount None) es)) <= 10.
Proof.
  apply (storeGood_run (fun l => length l <= 10) MapScreen.handlePlaceSelect).
  - intros place stored _. apply updatedRecentSearches_length.
  - intros place w [Hs Hq]. split; [done|]. turn.
    apply Forall_app. split; [done|]. apply Forall_singleton.
    cbn [opGood]. rewrite length_take. lia.
  - apply storeGood_mount. cbn. lia.
Qed.

(** [PlacesSearch] on its own keeps the store a History List: its append
    operation is the only writer, and it preserves the invariant. *)
Theorem alone_history_invariant (es : list Event) :
  history_invariant (persisted (runAlone (mount None) es)).
Proof.
  apply (storeGood_run history_invariant (fun _ w => w)).
  - intros place stored. apply updatedRecentSearches_invariant.
  - done.
  - apply storeGood_mount. split; [constructor|cbn; lia].
Qed.

(** ** Selections *)

Ltac run_selection idle :=
  unfold selection, run; cbn [foldl]; unfold step, stepWith;
  split_commit; unfold storageSettles; turn; rewrite idle; turn.

(** C9.  When the store holds a History List (no duplicate ids, at most ten
    entries) in which the id of the place occurs, the append operation
    [saveToRecentSearches], run to the end with both storage operations
    succeeding, leaves a stored list of the same length whose first entry is
    the place; the in-memory copy is that same list. *)
Theorem append_existing_keeps_length_and_fronts
    (w : World) (history : list Place) (place : Place) :
  history_invariant history ->
  place_id place ∈ place_id <$> history ->
  storage (rt w) = Some history ->
  storageQueue (rt w) = [] ->
  let w' := run (PlacesSearch.saveToRecentSearches place w)
                [StorageSettles true; StorageSettles true] in
  length (persisted w') = length history
  /\ head (persisted w') = Some place
  /\ persisted w' = PlacesSearch.updatedRecentSearches place (Some history)
  /\ recentSearches (search w') = persisted w'.
Proof.
  intros Hinv Hin Hstored idle w'.
  assert (persisted w'
          = PlacesSearch.updatedRecentSearches place (Some history)) as Hp.
  { subst w'. unfold run, persisted. cbn [foldl]. unfold step, stepWith, storageSettles.
    turn. rewrite idle. turn. by rewrite Hstored. }
  assert (recentSearches (search w') = persisted w') as Hm.
  { subst w'. unfold run, persisted. cbn [foldl]. unfold step, stepWith, storageSettles.
    turn. rewrite idle. by turn. }
  rewrite Hm, Hp. split; [by apply updatedRecentSearches_existing|].
  split; [apply updatedRecentSearches_head|]. split; reflexivity.
Qed.

Lemma append_existing_witness :
  let history := [eiger; eiffel] in
  let w := run (mount (Some history)) [StorageSettles true; StorageSettles true] in
  let w' := run (PlacesSearch.saveToRecentSearches eiffel w)
                [StorageSettles true; StorageSettles true] in
  (history_invariant history
   /\ place_id eiffel ∈ place_id <$> history
   /\ storage (rt w) = Some history
   /\ storageQueue (rt w) = [])
  /\ length (persisted w') = 2
  /\ head (persisted w') = Some eiffel
  /\ persisted w' = [eiffel; eiger].
Proof.
  intros history w w'.
  assert (history_invariant history) as Hinv.
  { split; [compute_done|cbn; lia]. }
  assert (place_id eiffel ∈ place_id <$> history) as Hin by compute_done.
  destruct (append_existing_keeps_length_and_fronts w history eiffel
              Hinv Hin eq_refl eq_refl) as (Hlen & Hhead & Hp & _).
  split; [split; [exact Hinv|split; [exact Hin|split; reflexivity]]|].
  split; [exact Hlen|]. split; [exact Hhead|exact Hp].
Defined.

(** The invariant is needed: on a list that holds the id twice, the
    append operation shortens the list. *)
Lemma append_to_duplicated_list_shrinks :
  PlacesSearch.updatedRecentSearches eiffel (Some [eiffel; eiffel; eiger])
  = [eiffel; eiger].
Proof. vm_compute. reflexivity. Qed.

(** C2.  Starting from an empty store, select the Eiffel Tower from the
    suggestions, select it again from the recent searches, then select the
    Eiger: every pressed item is on screen, every storage operation succeeds
    and has settled, and the store ends with the Eiffel Tower twice.
    [MapScreen.saveSearchHistory] prepends without removing the id, and
    [PlacesSearch.saveToRecentSearches] removes only the id it is adding. *)
Theorem reselect_persists_duplicate :
  let w' := run mounted reselectRun in
  feasible mounted reselectRun = true
  /\ storageQueue (rt w') = []
  /\ persisted w' = [eiger; eiffel; eiffel]
  /\ ~ history_invariant (persisted w').
Proof.
  intros w'.
  assert (persisted w' = [eiger; eiffel; eiffel]) as Hp by (vm_compute; reflexivity).
  split; [vm_compute; reflexivity|].
  split; [vm_compute; reflexivity|].
  split; [exact Hp|].
  rewrite Hp. intros [Hnd _]. revert Hnd. cbn.
  rewrite !NoDup_cons. intros (_ & Hnot & _). apply Hnot. left.
Qed.

(** C3, as the code has it.  From a world with no storage operation
    outstanding, a selection hands the place to [onPlaceSelect] exactly once.
    [PlacesSearch] on its own writes to the store once when its read of the
    store succeeds and not at all when the read fails.  In the application
    the callback, [MapScreen.handlePlaceSelect], writes its own list first
    ([saveSearchHistory]): the store receives two writes when the read
    succeeds, one when it fails. *)
Theorem selection_calls
    (w : World) (place : Place) (mapWrite read write : bool) :
  storageQueue (rt w) = [] ->
  let n := length (trace (rt w)) in
  let newHistory := take 10 (place :: searchHistory (screen w)) in
  let stored := if mapWrite then Some newHistory else storage (rt w) in
  (let w' := runAlone w [PressItem place; StorageSettles read;
                         StorageSettles write] in
   callbacksSince n w' = [place]
   /\ writesSince n w' = (if read then 1 else 0)
   /\ writtenValues (since n w')
      = (if read
         then [PlacesSearch.updatedRecentSearches place (storage (rt w))]
         else []))
  /\ (let w' := run w (selection place mapWrite read write) in
      callbacksSince n w' = [place]
      /\ writesSince n w' = (if read then 2 else 1)
      /\ writtenValues (since n w')
         = (if read
            then [PlacesSearch.updatedRecentSearches place stored]
            else [])
           ++ [newHistory]).
Proof.
  intros idle n newHistory stored. subst n newHistory stored.
  unfold callbacksSince, writesSince, since. split.
  - unfold runAlone; cbn [foldl]; unfold stepWith.
    split_commit; unfold storageSettles; turn; rewrite idle; turn;
      destruct read, write; turn; since_here; done.
  - run_selection idle; destruct mapWrite, read, write; turn; since_here; done.
Qed.

Lemma selection_calls_witness :
  let w := run mounted (typeEi 0) in
  let n := length (trace (rt w)) in
  let w' := run w (selection eiffel true true true) in
  storageQueue (rt w) = []
  /\ callbacksSince n w' = [eiffel]
  /\ writesSince n w' = 2
  /\ writtenValues (since n w') = [[eiffel]; [eiffel]].
Proof.
  intros w n w'.
  destruct (selection_calls w eiffel true true true eq_refl)
    as (_ & Hc & Hw & Hv).
  split; [reflexivity|]. split; [exact Hc|]. split; [exact Hw|exact Hv].
Defined.

(** C3, as stated, fails.  In the application, selecting a suggestion that
    is on screen, with every storage operation succeeding, sends two writes
    to the store.  And [PlacesSearch] taken on its own sends none when its
    read of the store fails. *)
Lemma selection_writes_twice :
  let w := run mounted (typeEi 0) in
  let n := length (trace (rt w)) in
  let w' := run w (selection eiffel true true true) in
  let alone := runAlone w [PressItem eiffel; StorageSettles false] in
  feasible mounted (typeEi 0 ++ selection eiffel true true true) = true
  /\ writesSince n w' = 2
  /\ ~ oneCallbackOneWrite n eiffel w'
  /\ writesSince n alone = 0
  /\ ~ oneCallbackOneWrite n eiffel alone.
Proof.
  intros w n w' alone.
  assert (writesSince n w' = 2) as Hw by (vm_compute; reflexivity).
  assert (writesSince n alone = 0) as Ha by (vm_compute; reflexivity).
  split; [vm_compute; reflexivity|]. split; [exact Hw|].
  split; [intros [_ H1]; rewrite Hw in H1; discriminate H1|].
  split; [exact Ha|]. intros [_ H1]. rewrite Ha in H1. discriminate H1.
Qed.

(** C5, as the code has it.  When the write of [saveToRecentSearches] fails,
    the callback has fired once, the failure is logged, nothing is left
    outstanding, and the in-memory [recentSearches] is what it was before the
    selection.  [MapScreen] behaves alike: its in-memory [searchHistory] is
    the new list only when its own write succeeded, and the store holds what
    that write carried, or its old content when that write failed too. *)
Theorem failed_write_keeps_memory
    (w : World) (place : Place) (mapWrite : bool) :
  storageQueue (rt w) = [] ->
  let n := length (trace (rt w)) in
  let w' := run w (selection place mapWrite true false) in
  let newHistory := take 10 (place :: searchHistory (screen w)) in
  callbacksSince n w' = [place]
  /\ head (trace (rt w')) = Some (ConsoleError "Error saving to recent searches:")
  /\ storageQueue (rt w') = []
  /\ recentSearches (search w') = recentSearches (search w)
  /\ searchHistory (screen w')
     = (if mapWrite then newHistory else searchHistory (screen w))
  /\ storage (rt w') = (if mapWrite then Some newHistory else storage (rt w)).
Proof.
  intros idle n w' newHistory. subst n w' newHistory.
  unfold callbacksSince, since.
  run_selection idle; destruct mapWrite; turn; since_here; done.
Qed.

Lemma failed_write_keeps_memory_witness :
  let w := run mounted (typeEi 0) in
  let w' := run w (selection eiffel true true false) in
  storageQueue (rt w) = []
  /\ callbacksSince (length (trace (rt w))) w' = [eiffel]
  /\ recentSearches (search w') = []
  /\ persisted w' = [eiffel].
Proof.
  intros w w'.
  destruct (failed_write_keeps_memory w eiffel true eq_refl)
    as (Hc & _ & _ & Hm & _ & Hs).
  split; [reflexivity|]. split; [exact Hc|]. split; [exact Hm|].
  subst w'. unfold persisted. rewrite Hs. reflexivity.
Defined.

(** C5, as stated, fails: both writes of a selection fail; the write of
    [saveToRecentSearches] carried the new list, and neither in-memory list
    has become the new list. *)
Lemma failed_write_loses_memory_update :
  let w := run mounted (typeEi 0) in
  let n := length (trace (rt w)) in
  let w' := run w (selection eiffel false true false) in
  feasible mounted (typeEi 0 ++ selection eiffel false true false) = true
  /\ callbacksSince n w' = [eiffel]
  /\ head (writtenValues (since n w'))
     = Some (PlacesSearch.updatedRecentSearches eiffel (storage (rt w)))
  /\ recentSearches (search w')
     <> PlacesSearch.updatedRecentSearches eiffel (storage (rt w))
  /\ searchHistory (screen w') <> take 10 (eiffel :: searchHistory (screen w)).
Proof.
  intros w n w'. do 3 (split; [vm_compute; reflexivity|]).
  assert (recentSearches (search w') = []) as -> by (vm_compute; reflexivity).
  assert (searchHistory (screen w') = []) as -> by (vm_compute; reflexivity).
  split; discriminate.
Qed.

(** ** Autocomplete responses *)

Lemma lookup_still_in_flight (a b : nat) (l : list Lookup) :
  a <> b -> a ∈ lookup_id <$> l ->
  a ∈ lookup_id <$> filter (fun q => lookup_id q <> b) l.
Proof.
  intros Hab. rewrite !list_elem_of_fmap. intros (q & -> & Hq).
  exists q. split; [done|]. by apply list_elem_of_filter.
Qed.

(** A fulfilled response to a request in flight becomes the suggestion list,
    whatever else is in flight. *)
Lemma response_applied (w : World) (a : nat) (l : list PlacePrediction) :
  a ∈ lookup_id <$> lookups (rt w) ->
  predictions (search (step w (AutocompleteSettles a (fulfilled l))))
  = PlacesSearch.transformedPredictions l.
Proof.
  intros Ha. unfold step, stepWith, autocompleteSettles.
  by destruct (decide _).
Qed.

Lemma settle_keeps_others (w : World) (a b : nat) (r : Settled AutocompleteResponse) :
  a <> b -> a ∈ lookup_id <$> lookups (rt w) ->
  a ∈ lookup_id <$> lookups (rt (step w (AutocompleteSettles b r))).
Proof.
  intros Hab Ha. unfold step, stepWith, autocompleteSettles.
  destruct (decide _); [|done].
  destruct r as [[[l|]]|]; turn; by apply lookup_still_in_flight.
Qed.

(** C1, as the code has it.  Responses are applied in the order they arrive,
    with no check against later lookups: a fulfilled response to any request
    in flight becomes the suggestion list, also while another lookup [b] is
    pending, and also after the response of [b] has been applied.  With [a]
    the earlier query and [b] the later one, resolving [b] first and [a]
    second leaves the list of [a]. *)
Theorem late_response_replaces_list
    (w : World) (a b : nat) (la : list PlacePrediction)
    (rb : Settled AutocompleteResponse) :
  a <> b ->
  a ∈ lookup_id <$> lookups (rt w) ->
  b ∈ lookup_id <$> lookups (rt w) ->
  predictions (search (step w (AutocompleteSettles a (fulfilled la))))
  = PlacesSearch.transformedPredictions la
  /\ predictions
       (search (run w [AutocompleteSettles b rb;
                       AutocompleteSettles a (fulfilled la)]))
     = PlacesSearch.transformedPredictions la.
Proof.
  intros Hab Ha Hb. split; [by apply response_applied|].
  unfold run. cbn [foldl]. apply response_applied.
  by apply settle_keeps_others.
Qed.

Lemma late_response_replaces_list_witness :
  let w := run mounted [ChangeText "ei"; Elapse 300; ChangeText "be"; Elapse 300] in
  (0 <> 1
   /\ 0 ∈ lookup_id <$> lookups (rt w)
   /\ 1 ∈ lookup_id <$> lookups (rt w))
  /\ predictions
       (search (run w [AutocompleteSettles 1 (fulfilled [berlinSuggestion]);
                       AutocompleteSettles 0 (fulfilled [eiffelSuggestion])]))
     = [eiffel].
Proof.
  intros w.
  assert (0 <> 1) as H01 by lia.
  assert (0 ∈ lookup_id <$> lookups (rt w)) as H0 by compute_done.
  assert (1 ∈ lookup_id <$> lookups (rt w)) as H1 by compute_done.
  split; [split; [exact H01|split; [exact H0|exact H1]]|].
  exact (proj2 (late_response_replaces_list w 0 1 [eiffelSuggestion]
                  (fulfilled [berlinSuggestion]) H01 H0 H1)).
Defined.

(** C1, as stated, fails: query "ei", then query "be" while the first lookup
    is in flight; the response to "be" arrives, then the response to "ei".
    The input reads "be" and the list is the one for "ei". *)
Lemma superseded_response_displayed :
  let w' := run mounted outOfOrderRun in
  feasible mounted outOfOrderRun = true
  /\ autocompleteInputs (trace (rt w')) = ["ei"; "be"]
  /\ searchText (search w') = "be"
  /\ predictions (search w') = [eiffel; eiger]
  /\ predictions (search w')
     <> PlacesSearch.transformedPredictions [berlinSuggestion].
Proof.
  intros w'. do 3 (split; [vm_compute; reflexivity|]).
  assert (predictions (search w') = [eiffel; eiger]) as ->
    by (vm_compute; reflexivity).
  split; [reflexivity|discriminate].
Qed.

(** A failed response leaves the suggestion list alone, whatever the state
    it arrives in. *)
Lemma failed_lookup_step (w : World) (id : nat) (r : Settled AutocompleteResponse) :
  lookupFailed r = true ->
  predictions (search (step w (AutocompleteSettles id r)))
  = predictions (search w).
Proof.
  intros Hr. unfold step, stepWith, autocompleteSettles.
  destruct (decide _); [|done]. by destruct r as [[[l|]]|].
Qed.

(** C6.  A lookup for a text of at least two characters sets the loading
    flag when it is issued; when its response arrives the flag is false,
    whether the lookup succeeded or failed, and after a failed lookup
    (rejected request or body without suggestions) the suggestion list is
    what it was before the call, the failure being logged. *)
Theorem failed_lookup_keeps_list
    (w : World) (text : string) (bias : option Coordinates)
    (r : Settled AutocompleteResponse) :
  2 <= String.length text ->
  let w1 := PlacesSearch.fetchPredictions text bias w in
  let w2 := step w1 (AutocompleteSettles (nextRequest (rt w)) r) in
  loading (search w1) = true
  /\ loading (search w2) = false
  /\ (lookupFailed r = true ->
      predictions (search w2) = predictions (search w)
      /\ head (trace (rt w2)) = Some (ConsoleError "Error fetching predictions:")).
Proof.
  intros Hlen w1 w2. subst w1 w2.
  unfold PlacesSearch.fetchPredictions.
  destruct (String.length text <? 2)%nat eqn:Hshort;
    [apply Nat.ltb_lt in Hshort; lia|].
  unfold step, stepWith, autocompleteSettles.
  destruct (decide _) as [_|Hnot].
  - split; [done|]. split; [by destruct r as [[[l|]]|]|].
    intros Hr. by destruct r as [[[l|]]|].
  - destruct Hnot. turn. rewrite fmap_app. apply elem_of_app. right.
    apply list_elem_of_singleton. reflexivity.
Qed.

Lemma failed_lookup_keeps_list_witness :
  let w := run mounted (typeEi 0) in
  let w1 := PlacesSearch.fetchPredictions "eig" None w in
  let w2 := step w1 (AutocompleteSettles (nextRequest (rt w)) Rejected) in
  (2 <= String.length "eig" /\ lookupFailed Rejected = true)
  /\ loading (search w2) = false
  /\ predictions (search w2) = [eiffel; eiger].
Proof.
  intros w w1 w2.
  assert (2 <= String.length "eig") as Hlen by (cbn; lia).
  destruct (failed_lookup_keeps_list w "eig" None Rejected Hlen)
    as (_ & Hl & Hp).
  destruct (Hp eq_refl) as [Hp' _].
  split; [split; [exact Hlen|reflexivity]|]. split; [exact Hl|exact Hp'].
Defined.

(** ** The marker *)

(** A failed resolution changes nothing of what [MapScreen] renders,
    whatever the state it arrives in. *)
Lemma failed_details_step (w : World) (id : nat) (r : Settled (option LatLng)) :
  detailsFailed r = true ->
  screen (step w (DetailsSettle id r)) = screen w.
Proof.
  intros Hr. unfold step, stepWith, detailsSettle.
  destruct (list_find _ _) as [[? [? place]]|]; [|done].
  by destruct r as [[l|]|].
Qed.

Lemma pressItem_screen (w : World) (place : Place) :
  selectedPlace (screen (step w (PressItem place))) = Some place
  /\ region (screen (step w (PressItem place))) = region (screen w).
Proof. unfold step, stepWith. by split_commit. Qed.



(** When the marker stands on a resolved place and the region is centred on
    it, as a successful resolution leaves them, a later selection whose
    resolution fails leaves the marker on that coordinate. *)
Lemma failed_details_marker_stays (w : World) (place : Place)
    (r : Settled (option LatLng)) :
  detailsFailed r = true ->
  location place = None ->
  MapScreen.marker w = Some (center (region (screen w))) ->
  MapScreen.marker
    (step (step w (PressItem place)) (DetailsSettle (nextRequest (rt w)) r))
  = MapScreen.marker w.
Proof.
  intros Hr Hloc Hm. rewrite Hm. unfold MapScreen.marker.
  rewrite (failed_details_step _ _ _ Hr).
  destruct (pressItem_screen w place) as [-> ->]. by rewrite Hloc.
Qed.

(** ** Text changes *)

(** C10.  A change to the empty text clears the suggestion list and unsets
    the focus flag in the handler's own turn: no time passes and no timer
    fires.  A change to any non-empty text sets the focus flag and leaves
    the suggestion list alone. *)
Theorem text_change_focus (w : World) :
  (let w' := step w (ChangeText "") in
   searchText (search w') = ""
   /\ predictions (search w') = []
   /\ isInputFocused (search w') = false
   /\ clock (rt w') = clock (rt w)
   /\ autocompleteInputs (trace (rt w')) = autocompleteInputs (trace (rt w)))
  /\ (forall (c : ascii) (s : string),
        let w' := step w (ChangeText (String c s)) in
        searchText (search w') = String c s
        /\ isInputFocused (search w') = true
        /\ predictions (search w') = predictions (search w)).
Proof.
  split.
  - unfold step, stepWith, PlacesSearch.handleTextChange.
    split_commit; unfold autocompleteInputs; turn;
      rewrite ?omap_app; turn; rewrite ?app_nil_r; done.
  - intros c s. unfold step, stepWith, PlacesSearch.handleTextChange. by split_commit.
Qed.

(** ** The debounce *)

Lemma autocompleteInputs_cons (e : Effect) (t : list Effect) :
  autocompleteInputs (e :: t)
  = autocompleteInputs t
    ++ match e with CallAutocomplete i _ => [i] | _ => [] end.
Proof.
  unfold autocompleteInputs. cbn [rev]. rewrite omap_app.
  by destruct e.
Qed.

Ltac inputs_here :=
  rewrite ?autocompleteInputs_cons; cbn [app]; rewrite ?app_nil_r.

Lemma owned_cleared (w : World) (id : nat) :
  debounceOwned w -> debounceTimer w = Some id ->
  filter (fun t => timer_id t <> id) (timers (rt w)) = [].
Proof.
  unfold debounceOwned. intros Ho Hid.
  destruct (timers (rt w)) as [|t [|t' ts]]; [done| |done].
  rewrite Hid in Ho. injection Ho as ->.
  by rewrite filter_cons_False by (intros H; by apply H).
Qed.

Lemma owned_unset (w : World) :
  debounceOwned w -> debounceTimer w = None -> timers (rt w) = [].
Proof.
  unfold debounceOwned. intros Ho Hid.
  destruct (timers (rt w)) as [|t [|t' ts]]; [done| |done]. congruence.
Qed.

(** An edit cancels whatever timer is pending and arms the effect anew. *)
Lemma edit_arms (w : World) (text : string) :
  debounceOwned w -> text <> searchText (search w) ->
  let w' := step w (ChangeText text) in
  armed w' text (clock (rt w) + 300)
  /\ clock (rt w') = clock (rt w)
  /\ userLocation (search w') = userLocation (search w)
  /\ lookups (rt w') = lookups (rt w)
  /\ autocompleteInputs (trace (rt w')) = autocompleteInputs (trace (rt w)).
Proof.
  intros Ho Hne w'. subst w'. unfold armed, step, stepWith, PlacesSearch.commit.
  destruct (decide _) as [Heq|_].
  { destruct Hne. rewrite Heq. unfold PlacesSearch.handleTextChange.
    by destruct (String.length text =? 0)%nat. }
  unfold PlacesSearch.debounceEffect, PlacesSearch.debounceCleanup,
    PlacesSearch.handleTextChange.
  destruct (debounceTimer w) as [id|] eqn:Hid;
    destruct (String.length text =? 0)%nat; turn; rewrite ?Hid; turn;
    rewrite ?(owned_cleared w id Ho Hid), ?(owned_unset w Ho Hid);
    inputs_here; eauto 10.
Qed.

(** While the armed timer is not due, time passing changes only the clock. *)
Lemma wait_keeps_armed (w : World) (text : string) (due gap : nat) :
  armed w text due -> clock (rt w) + gap < due ->
  let w' := step w (Elapse gap) in
  armed w' text due
  /\ clock (rt w') = clock (rt w) + gap
  /\ lookups (rt w') = lookups (rt w)
  /\ predictions (search w') = predictions (search w)
  /\ autocompleteInputs (trace (rt w')) = autocompleteInputs (trace (rt w)).
Proof.
  intros (id & Ht & Hid & Htext) Hlt w'. subst w'.
  unfold armed, step, stepWith, elapse. rewrite Ht.
  rewrite !filter_cons, !filter_nil. cbn [deadline].
  repeat (destruct (decide _); try lia). turn. eauto 10.
Qed.

(** Once the armed timer is due, time passing fires it: a text of at least
    two characters is looked up, a shorter one clears the suggestions. *)
Lemma due_timer_fires (w : World) (text : string) (due quiet : nat) :
  armed w text due -> due <= clock (rt w) + quiet ->
  let w' := step w (Elapse quiet) in
  timers (rt w') = []
  /\ autocompleteInputs (trace (rt w'))
     = autocompleteInputs (trace (rt w)) ++ lookupFor text
  /\ (String.length text < 2 ->
      predictions (search w') = [] /\ lookups (rt w') = lookups (rt w)).
Proof.
  intros (id & Ht & Hid & Htext) Hle w'. subst w'.
  unfold step, stepWith, elapse. rewrite Ht.
  rewrite !filter_cons, !filter_nil. cbn [deadline].
  repeat (destruct (decide _); try lia).
  cbn [foldl]. unfold fire, lookupFor.
  unfold PlacesSearch.fetchPredictions. cbn [timer_text timer_location].
  destruct (String.length text <? 2)%nat eqn:Hshort.
  - apply Nat.ltb_lt in Hshort.
    destruct (2 <=? String.length text)%nat eqn:Hlong;
      [apply Nat.leb_le in Hlong; lia|].
    turn. by rewrite app_nil_r.
  - apply Nat.ltb_ge in Hshort.
    destruct (2 <=? String.length text)%nat eqn:Hlong;
      [|apply Nat.leb_gt in Hlong; lia].
    turn. inputs_here. split; [done|]. split; [done|]. lia.
Qed.

Lemma feasible_app_edit (w : World) (gap : nat) (text : string) (es : list Event) :
  feasible w (Elapse gap :: ChangeText text :: es) = true ->
  text <> searchText (search (step w (Elapse gap)))
  /\ feasible (step (step w (Elapse gap)) (ChangeText text)) es = true.
Proof.
  cbn [feasible enabled]. rewrite andb_true_l, andb_true_iff.
  intros [Hne Hf]. split; [|done]. by apply bool_decide_eq_true in Hne.
Qed.

Lemma last_cons_default {A : Type} (l : list A) (x d : A) :
  List.last (x :: l) d = List.last l x.
Proof.
  revert x d. induction l as [|a l IH]; intros x d; [done|].
  change (List.last (x :: a :: l) d) with (List.last (a :: l) d).
  by rewrite (IH a d), (IH a x).
Qed.

Lemma finalText_cons (text next : string) (gap : nat) (rest : list (nat * string)) :
  finalText text ((gap, next) :: rest) = finalText next rest.
Proof. unfold finalText. cbn [fmap list_fmap snd]. apply last_cons_default. Qed.

Lemma armed_owned (w : World) (text : string) (due : nat) :
  armed w text due -> debounceOwned w.
Proof. intros (id & Ht & Hid & _). unfold debounceOwned. by rewrite Ht. Qed.

(** After the first edit of a burst: the later edits and the quiet period. *)
Lemma burst_tail (quiet : nat) (rest : list (nat * string)) :
  300 <= quiet ->
  forall (w : World) (text : string),
    armed w text (clock (rt w) + 300) ->
    Forall (fun e => fst e < 300) rest ->
    feasible w (edits rest ++ [Elapse quiet]) = true ->
    let w' := run w (edits rest ++ [Elapse quiet]) in
    timers (rt w') = []
    /\ autocompleteInputs (trace (rt w'))
       = autocompleteInputs (trace (rt w)) ++ lookupFor (finalText text rest).
Proof.
  intros Hquiet. induction rest as [|[gap next] rest IH];
    intros w text Harmed Hgaps Hfeasible.
  - cbn [edits app run foldl finalText fmap list_fmap List.last].
    destruct (due_timer_fires w text _ quiet Harmed) as (Ht & Hi & _); [lia|].
    done.
  - apply Forall_cons in Hgaps as [Hgap Hgaps]. cbn [fst] in Hgap.
    cbn [edits app] in Hfeasible |- *.
    apply feasible_app_edit in Hfeasible as [Hne Hfeasible].
    destruct (wait_keeps_armed w text _ gap Harmed) as (Ha & Hc & _ & _ & Hi);
      [lia|].
    destruct (edit_arms (step w (Elapse gap)) next (armed_owned _ _ _ Ha) Hne)
      as (Ha' & Hc' & _ & _ & Hi').
    rewrite <- Hc' in Ha'.
    destruct (IH _ next Ha' Hgaps Hfeasible) as (Ht'' & Hi'').
    unfold run in *. cbn [foldl]. split; [exact Ht''|].
    by rewrite Hi'', Hi', Hi, finalText_cons.
Qed.

(** Every edit of a burst finds the previous edit's timer still pending and
    leaves its own timer as the only one. *)
Lemma burst_rearms (rest : list (nat * string)) :
  forall (w : World) (text : string),
    armed w text (clock (rt w) + 300) ->
    Forall (fun e => fst e < 300) rest ->
    feasible w (edits rest) = true ->
    forall (before : list (nat * string)) (gap : nat) (next : string)
           (after : list (nat * string)),
      rest = before ++ (gap, next) :: after ->
      let w0 := run w (edits before ++ [Elapse gap]) in
      let w1 := step w0 (ChangeText next) in
      (exists previous, armed w0 previous (clock (rt w0) - gap + 300))
      /\ armed w1 next (clock (rt w1) + 300).
Proof.
  induction rest as [|[gap0 next0] rest IH];
    intros w text Harmed Hgaps Hfeasible before gap next after Hsplit.
  - by destruct before.
  - apply Forall_cons in Hgaps as [Hgap Hgaps]. cbn [fst] in Hgap.
    cbn [edits] in Hfeasible.
    apply feasible_app_edit in Hfeasible as [Hne Hfeasible].
    destruct (wait_keeps_armed w text _ gap0 Harmed) as (Ha & Hc & _);
      [lia|].
    destruct (edit_arms (step w (Elapse gap0)) next0 (armed_owned _ _ _ Ha) Hne)
      as (Ha' & Hc' & _).
    destruct before as [|[g b] before]; cbn [app] in Hsplit.
    + injection Hsplit as -> -> ->. cbn [edits app run foldl].
      split; [|by rewrite Hc'].
      exists text. by replace (clock (rt (step w (Elapse gap))) - gap)
        with (clock (rt w)) by lia.
    + injection Hsplit as -> -> ->. cbn [edits app run foldl].
      rewrite <- Hc' in Ha'.
      apply (IH _ _ Ha' Hgaps Hfeasible before gap next after eq_refl).
Qed.

Lemma feasible_app (es es' : list Event) (w : World) :
  feasible w (es ++ es') = true -> feasible w es = true.
Proof.
  revert w. induction es as [|e es IH]; intros w; [done|].
  cbn [app feasible]. rewrite !andb_true_iff. intros [He Hes].
  split; [done|]. by apply IH.
Qed.

(** C8, as the code has it.  In a burst of edits, each changing the text and
    each less than 300 ms after the one before, followed by at least 300 ms
    without an edit, every edit finds the timer of the edit before it still
    pending and leaves its own timer as the only pending one; when the burst
    is over no timer is pending, and the calls issued are those issued before
    the burst followed by one call carrying the final text when that text has
    at least two characters, and by no call when it is shorter. *)
Theorem burst_issues_final_text
    (w : World) (first : string) (rest : list (nat * string)) (quiet : nat) :
  debounceOwned w ->
  feasible w (burst first rest quiet) = true ->
  Forall (fun e => fst e < 300) rest ->
  300 <= quiet ->
  let w' := run w (burst first rest quiet) in
  autocompleteInputs (trace (rt w'))
  = autocompleteInputs (trace (rt w)) ++ lookupFor (finalText first rest)
  /\ timers (rt w') = []
  /\ armed (step w (ChangeText first)) first (clock (rt w) + 300)
  /\ (forall (before : list (nat * string)) (gap : nat) (next : string)
             (after : list (nat * string)),
        rest = before ++ (gap, next) :: after ->
        let w0 := run w (ChangeText first :: edits before ++ [Elapse gap]) in
        let w1 := step w0 (ChangeText next) in
        (exists previous, armed w0 previous (clock (rt w0) - gap + 300))
        /\ armed w1 next (clock (rt w1) + 300)).
Proof.
  intros Ho Hfeasible Hgaps Hquiet w'. subst w'.
  unfold burst in *. cbn [feasible enabled] in Hfeasible.
  apply andb_true_iff in Hfeasible as [Hne Hfeasible].
  apply bool_decide_eq_true in Hne.
  destruct (edit_arms w first Ho Hne) as (Ha & Hc & _ & _ & Hi).
  assert (armed (step w (ChangeText first)) first
            (clock (rt (step w (ChangeText first))) + 300)) as Ha'
    by (by rewrite Hc).
  destruct (burst_tail quiet rest Hquiet _ first Ha' Hgaps Hfeasible)
    as (Ht & Hi').
  unfold run in *. cbn [foldl].
  split; [by rewrite Hi', Hi|]. split; [exact Ht|]. split; [exact Ha|].
  intros before gap next after Hsplit.
  apply (burst_rearms rest _ first Ha' Hgaps (feasible_app _ _ _ Hfeasible)
           before gap next after Hsplit).
Qed.

Lemma burst_issues_final_text_witness :
  let rest := [(100, "ei"); (250, "eif")] in
  let w' := run mounted (burst "e" rest 300) in
  (debounceOwned mounted
   /\ feasible mounted (burst "e" rest 300) = true
   /\ Forall (fun e => fst e < 300) rest
   /\ 300 <= 300)
  /\ autocompleteInputs (trace (rt w')) = ["eif"]
  /\ timers (rt w') = [].
Proof.
  intros rest w'.
  assert (debounceOwned mounted) as Ho by reflexivity.
  assert (feasible mounted (burst "e" rest 300) = true) as Hf
    by (vm_compute; reflexivity).
  assert (Forall (fun e => fst e < 300) rest) as Hg
    by (repeat apply Forall_cons_2; cbn [fst]; try lia; apply Forall_nil_2).
  assert (300 <= 300) as Hq by lia.
  destruct (burst_issues_final_text mounted "e" rest 300 Ho Hf Hg Hq)
    as (Hi & Ht & _).
  split; [split; [exact Ho|split; [exact Hf|split; [exact Hg|exact Hq]]]|].
  split; [exact Hi|exact Ht].
Defined.

(** C8, as stated, fails: a burst of one edit to the text "a", then 300 ms
    of quiet, issues no call. *)
Lemma short_burst_issues_no_call :
  let w' := run mounted (burst "a" [] 300) in
  feasible mounted (burst "a" [] 300) = true
  /\ finalText "a" [] = "a"
  /\ autocompleteInputs (trace (rt w')) = []
  /\ ~ exactlyOneCall mounted w' "a".
Proof.
  intros w'. do 3 (split; [vm_compute; reflexivity|]).
  unfold exactlyOneCall.
  assert (autocompleteInputs (trace (rt w')) = []) as ->
    by (vm_compute; reflexivity).
  intros H. by apply app_cons_not_nil in H.
Qed.

(** When its timer fires, [fetchPredictions] for a text shorter than two
    characters clears the suggestions and calls nothing. *)
Lemma fetchPredictions_short
    (w : World) (text : string) (bias : option Coordinates) :
  String.length text < 2 ->
  PlacesSearch.fetchPredictions text bias w = setPredictions [] w.
Proof.
  intros Hshort. unfold PlacesSearch.fetchPredictions.
  by destruct (Nat.ltb_spec (String.length text) 2); [|lia].
Qed.

(** C4, as the code has it.  The test is on the length of the text as typed,
    not trimmed: an edit to a text of fewer than two characters, followed by
    at least 300 ms of quiet, issues no autocomplete call and leaves the
    suggestion list empty. *)
Theorem short_text_no_lookup (w : World) (text : string) (quiet : nat) :
  debounceOwned w ->
  text <> searchText (search w) ->
  String.length text < 2 ->
  300 <= quiet ->
  let w' := run w [ChangeText text; Elapse quiet] in
  predictions (search w') = []
  /\ lookups (rt w') = lookups (rt w)
  /\ autocompleteInputs (trace (rt w')) = autocompleteInputs (trace (rt w)).
Proof.
  intros Ho Hne Hshort Hquiet w'. subst w'. unfold run. cbn [foldl].
  destruct (edit_arms w text Ho Hne) as (Ha & Hc & _ & Hl & Hi).
  destruct (due_timer_fires _ text _ quiet Ha) as (_ & Hi' & Hp); [lia|].
  destruct (Hp Hshort) as [Hp' Hl'].
  split; [exact Hp'|]. split; [by rewrite Hl', Hl|].
  rewrite Hi', Hi. unfold lookupFor.
  destruct (Nat.leb_spec 2 (String.length text)); [lia|]. apply app_nil_r.
Qed.

Lemma short_text_no_lookup_witness :
  let w := run mounted (typeEi 0) in
  let w' := run w [ChangeText "e"; Elapse 300] in
  (debounceOwned w
   /\ "e" <> searchText (search w)
   /\ String.length "e" < 2
   /\ 300 <= 300)
  /\ predictions (search w') = []
  /\ autocompleteInputs (trace (rt w')) = ["ei"].
Proof.
  intros w w'.
  assert (debounceOwned w) as Ho by reflexivity.
  assert ("e" <> searchText (search w)) as Hne by discriminate.
  assert (String.length "e" < 2) as Hs by (cbn; lia).
  assert (300 <= 300) as Hq by lia.
  destruct (short_text_no_lookup w "e" 300 Ho Hne Hs Hq) as (Hp & _ & Hi).
  split; [split; [exact Ho|split; [exact Hne|split; [exact Hs|exact Hq]]]|].
  split; [exact Hp|exact Hi].
Defined.

(** C4, as stated, fails: the text " a" has one character once trimmed, and
    300 ms after it is typed an autocomplete call carrying it is issued. *)
Lemma blank_padded_text_is_looked_up :
  let w' := run mounted [ChangeText " a"; Elapse 300] in
  feasible mounted [ChangeText " a"; Elapse 300] = true
  /\ spec_trimmedLength " a" = 1
  /\ autocompleteInputs (trace (rt w')) = [" a"]
  /\ lookup_input <$> lookups (rt w') = [" a"]
  /\ ~ (spec_trimmedLength " a" < 2 ->
        autocompleteInputs (trace (rt w'))
        = autocompleteInputs (trace (rt mounted))).
Proof.
  intros w'. do 4 (split; [vm_compute; reflexivity|]).
  intros H.
  assert (spec_trimmedLength " a" < 2) as Hlt by (vm_compute; lia).
  specialize (H Hlt). vm_compute in H. discriminate H.
Qed.

(** ** The debounce timer in every reachable world *)

Lemma fire_timers (w : World) (t : Timer) :
  timers (rt (fire w t)) = timers (rt w)
  /\ debounceTimer (fire w t) = debounceTimer w.
Proof.
  unfold fire, PlacesSearch.fetchPredictions.
  by destruct (String.length (timer_text t) <? 2)%nat.
Qed.

Lemma foldl_fire_timers (ts : list Timer) (w : World) :
  timers (rt (foldl fire w ts)) = timers (rt w)
  /\ debounceTimer (foldl fire w ts) = debounceTimer w.
Proof.
  revert w. induction ts as [|t ts IH]; intros w; [done|].
  cbn [foldl]. destruct (IH (fire w t)) as [-> ->]. apply fire_timers.
Qed.

Lemma debounceOwned_eq (w w' : World) :
  timers (rt w') = timers (rt w) ->
  debounceTimer w' = debounceTimer w ->
  debounceOwned w -> debounceOwned w'.
Proof. unfold debounceOwned. by intros -> ->. Qed.

Lemma debounceEffect_owned (w : World) :
  debounceOwned w -> debounceOwned (PlacesSearch.debounceEffect w).
Proof.
  intros Ho. unfold PlacesSearch.debounceEffect, PlacesSearch.debounceCleanup.
  destruct (debounceTimer w) as [id|] eqn:Hid; unfold debounceOwned; turn;
    by rewrite ?(owned_cleared w id Ho Hid), ?(owned_unset w Ho Hid).
Qed.

Lemma commit_owned (prev w : World) :
  debounceOwned w -> debounceOwned (PlacesSearch.commit prev w).
Proof.
  intros Ho. unfold PlacesSearch.commit.
  destruct (decide _); [done|]. by apply debounceEffect_owned.
Qed.

Lemma debounceOwned_step (w : World) (e : Event) :
  debounceOwned w -> debounceOwned (step w e).
Proof.
  intros Ho. destruct e as [text| |place| |ms|ok|id r|id r|r|r]; unfold step, stepWith.
  - apply commit_owned, (debounceOwned_eq w); [..|exact Ho];
      unfold PlacesSearch.handleTextChange;
      by destruct (String.length text =? 0)%nat.
  - apply (debounceOwned_eq w); [..|exact Ho]; unfold handleFocus; turn;
      by destruct (String.length (searchText (search w)) =? 0)%nat.
  - by apply commit_owned, (debounceOwned_eq w).
  - by apply commit_owned, (debounceOwned_eq w).
  - unfold elapse. cbv zeta.
    match goal with
    | |- context [foldl fire ?w0 ?ts] =>
        destruct (foldl_fire_timers ts w0) as [Ht Hd]
    end.
    unfold debounceOwned in *. rewrite Ht, Hd. turn.
    destruct (timers (rt w)) as [|t [|t' ts]]; [done| |done].
    rewrite filter_cons, filter_nil. by destruct (decide _).
  - apply (debounceOwned_eq w); [..|exact Ho]; unfold storageSettles;
      destruct (storageQueue (rt w)) as [|[k|value k] rest]; try done;
      destruct k, ok; turn; try done; by destruct (storage (rt w)).
  - unfold autocompleteSettles. destruct (decide _); [|done].
    apply (debounceOwned_eq w); [..|exact Ho]; by destruct r as [[[l|]]|].
  - unfold detailsSettle.
    destruct (list_find _ _) as [[? [? place]]|]; [|done].
    apply (debounceOwned_eq w); [..|exact Ho]; by destruct r as [[l|]|].
  - destruct r as [[c|]|]; unfold PlacesSearch.getUserLocation_resume;
      try done. by apply debounceEffect_owned, (debounceOwned_eq w).
  - apply (debounceOwned_eq w); [..|exact Ho]; by destruct r as [[c|]|].
Qed.

(** In every world the application can reach, at most one timer is pending
    and it is the one the debounce effect would cancel. *)
Lemma debounceOwned_reachable (stored : option (list Place)) (es : list Event) :
  debounceOwned (run (mount stored) es).
Proof.
  assert (forall w, debounceOwned w -> debounceOwned (run w es)) as Hrun.
  { induction es as [|e es IH]; intros w Ho; [done|].
    apply IH. by apply debounceOwned_step. }
  by apply Hrun.
Qed.
